(** * The lazily resolved [uname_result] records of [main.py]

    A shallow embedding of [src/main.py]: the two tuple-like classes
    [uname_result] and [uname_result2], whose sixth field [processor] is
    computed on first access by running [uname -p] and cached in the
    instance, together with the resolver [_Processor], the helper
    [_unknown_as_blank] and the entry point [main].

    Python objects live in a store and are named by references, the
    external command is an oracle recorded in the state, and exceptions are
    results of a small state-and-exception monad. *)

From Stdlib Require Import ZArith Lia Bool Ascii String.
From stdpp Require Import base list strings relations.

Local Open Scope string_scope.
Local Open Scope list_scope.
Local Open Scope Z_scope.

(** ** Strings *)

(** [_unknown_as_blank(val)]: [return '' if val == 'unknown' else val]. *)
Definition _unknown_as_blank (val : string) : string :=
  if String.eqb val "unknown" then "" else val.

(** [str.isspace] on one character, for the code points below 256 that a
    [string] holds: TAB, LF, VT, FF, CR, the separators 0x1c-0x1f, SPACE,
    NEL (0x85) and NBSP (0xa0). *)
Definition isspace (c : ascii) : bool :=
  let n := N_of_ascii c in
  ((9 <=? n) && (n <=? 13) || (28 <=? n) && (n <=? 32)
   || (n =? 133) || (n =? 160))%N.

Fixpoint lstrip (s : string) : string :=
  match s with
  | EmptyString => EmptyString
  | String c t => if isspace c then lstrip t else s
  end.

Fixpoint rstrip (s : string) : string :=
  match s with
  | EmptyString => EmptyString
  | String c t =>
      match rstrip t with
      | EmptyString => if isspace c then EmptyString else String c EmptyString
      | t' => String c t'
      end
  end.

(** [str.strip()] without argument. *)
Definition strip (s : string) : string := rstrip (lstrip s).

(** ** Exceptions, the store and the outside world *)

(** The exception classes the program can meet.  [OSError] stands for the
    class with its subclasses ([FileNotFoundError], [PermissionError]).
    [SystemError] is what the interpreter would report for a reference to
    an object that was never allocated; no program text raises it. *)
Inductive exn : Set :=
| TypeError
| IndexError
| OSError
| CalledProcessError
| SystemError.

#[global] Instance exn_eq_dec : EqDecision exn.
Proof. solve_decision. Defined.

Inductive result (A : Type) : Type :=
| Ok (a : A)
| Raise (e : exn).
Arguments Ok {A} a.
Arguments Raise {A} e.

(** What running [uname -p] can do: exit with status 0 and some text on
    its standard output, exit with another status, or fail to start. *)
Inductive cmd_outcome : Set :=
| Exit0 (stdout : string)
| NonZeroExit
| SpawnFailure.

(** The two classes of the module. *)
Inductive cls : Set :=
| Cuname_result
| Cuname_result2.

#[global] Instance cls_eq_dec : EqDecision cls.
Proof. solve_decision. Defined.

(** [collections.namedtuple("uname_result_base",
    "system node release version machine")]: the five stored items. *)
Record uname_result_base : Set := mk_base {
  system : string;
  node : string;
  release : string;
  version : string;
  machine : string
}.

(** An instance of one of the two classes: its class, the five items of
    the underlying tuple and its [__dict__].  Neither class declares
    [__slots__], so instances have a [__dict__]; the only key the program
    ever stores there is ['processor'], written by [cached_property]. *)
Record instance : Set := mk_instance {
  ob_type : cls;
  ob_item : uname_result_base;
  ob_dict : option string
}.

Abbreviation ref := nat.

(** The state of a run: the objects allocated so far, [sys.platform], the
    outcome of the n-th run of [uname -p], and how many runs were made. *)
Record state : Type := mk_state {
  heap : list instance;
  sys_platform : string;
  uname_p : nat -> cmd_outcome;
  spawned : nat
}.

Definition set_heap (h : list instance) (s : state) : state :=
  mk_state h (sys_platform s) (uname_p s) (spawned s).

(** One more run of the command has been made. *)
Definition tick (s : state) : state :=
  mk_state (heap s) (sys_platform s) (uname_p s) (S (spawned s)).

(** ** The monad of Python computations *)

Definition M (A : Type) : Type := state -> result A * state.

Definition ret {A} (a : A) : M A := fun s => (Ok a, s).

Definition raise {A} (e : exn) : M A := fun s => (Raise e, s).

Definition bind {A B} (m : M A) (k : A -> M B) : M B :=
  fun s =>
    match m s with
    | (Ok a, s') => k a s'
    | (Raise e, s') => (Raise e, s')
    end.

Notation "x <- m ;; k" := (bind m (fun x => k))
  (at level 100, m at next level, right associativity).

(** [try: body  except (classes): handler]. *)
Definition try_except {A} (body : M A) (classes : list exn) (handler : M A)
  : M A :=
  fun s =>
    match body s with
    | (Ok a, s') => (Ok a, s')
    | (Raise e, s') =>
        if bool_decide (e ∈ classes) then handler s' else (Raise e, s')
    end.

(** Reading the object behind a reference. *)
Definition deref (r : ref) : M instance :=
  fun s =>
    match heap s !! r with
    | Some i => (Ok i, s)
    | None => (Raise SystemError, s)
    end.

(** Allocating a new object; its reference is the next free index. *)
Definition alloc (i : instance) : M ref :=
  fun s => (Ok (length (heap s)), set_heap (heap s ++ [i]) s).

(** [instance.__dict__[attrname] = val]. *)
Definition dict_store (r : ref) (val : string) : M unit :=
  fun s =>
    match heap s !! r with
    | Some i =>
        (Ok tt,
         set_heap (<[r := mk_instance (ob_type i) (ob_item i) (Some val)]>
                     (heap s)) s)
    | None => (Raise SystemError, s)
    end.

(** ** The processor resolver *)

Module _Processor.

(** [subprocess.check_output(['uname', '-p'], stderr=DEVNULL, text=True)]:
    one more run of the command; its text on exit status 0,
    [CalledProcessError] on another status, [OSError] when the command
    cannot be started. *)
Definition check_output : M string :=
  fun s =>
    match uname_p s (spawned s) with
    | Exit0 out => (Ok out, tick s)
    | NonZeroExit => (Raise CalledProcessError, tick s)
    | SpawnFailure => (Raise OSError, tick s)
    end.

(** [from_subprocess()]: the stripped output, or [None] (falling off the
    end after [pass]) when one of the two exceptions was caught. *)
Definition from_subprocess : M (option string) :=
  try_except
    (out <- check_output ;; ret (Some (strip out)))
    [OSError; CalledProcessError]
    (ret None).

(** The attributes of the class whose name starts with [get_]: the class
    defines [get] and [from_subprocess] only, so there is none. *)
Definition platform_getters : list (string * M (option string)) := [].

(** [getattr(cls, name, default)] for such a name. *)
Definition getattr (name : string) (default : M (option string))
  : M (option string) :=
  match List.find (fun p => String.eqb (fst p) name) platform_getters with
  | Some p => snd p
  | None => default
  end.

(** [get()]: [func = getattr(cls, f'get_{sys.platform}',
    cls.from_subprocess); return func() or '']. *)
Definition get : M string :=
  fun s =>
    let func := getattr ("get_" +:+ sys_platform s) from_subprocess in
    (v <- func ;;
     ret match v with
         | Some (String c t) => String c t
         | Some EmptyString | None => ""
         end) s.

End _Processor.

(** ** Tuples *)

(** [t[key]] for an integer key on a tuple: negative keys count from the
    end, a key outside [-len(t) .. len(t)-1] raises [IndexError]. *)
Definition tuple_index (t : list string) (key : Z) : result string :=
  let n := Z.of_nat (length t) in
  let k := if key <? 0 then key + n else key in
  if (0 <=? k) && (k <? n) then
    match t !! Z.to_nat k with
    | Some v => Ok v
    | None => Raise IndexError
    end
  else Raise IndexError.

(** The same as a computation: it returns or raises, and leaves the state
    alone. *)
Definition tuple_getitem (t : list string) (key : Z) : M string :=
  fun s => (tuple_index t key, s).

(** [t[:stop]] for an integer stop. *)
Definition tuple_slice_to (t : list string) (stop : Z) : list string :=
  let n := Z.of_nat (length t) in
  let k := if stop <? 0 then Z.max 0 (stop + n) else stop in
  take (Z.to_nat k) t.

(** ** The namedtuple base *)

(** [uname_result_base._fields]. *)
Definition uname_result_base_fields : list string :=
  ["system"; "node"; "release"; "version"; "machine"].

(** [uname_result_base.__new__(cls, system, node, release, version,
    machine)] called as [cls.__new__(cls, *args)]: any other number of
    positional arguments is a [TypeError]; the new object has an empty
    [__dict__]. *)
Definition namedtuple_new (c : cls) (args : list string) : M ref :=
  match args with
  | [a0; a1; a2; a3; a4] =>
      alloc (mk_instance c (mk_base a0 a1 a2 a3 a4) None)
  | _ => raise TypeError
  end.

(** [uname_result_base.__iter__(self)], the iteration of the stored tuple
    that [super().__iter__()] reaches. *)
Definition namedtuple_iter (self : ref) : M (list string) :=
  i <- deref self ;;
  let t := ob_item i in
  ret [system t; node t; release t; version t; machine t].

(** [functools.cached_property(func).__get__(instance)]: the value in the
    instance's [__dict__] when there is one, otherwise the value of
    [func(instance)], stored there before it is returned. *)
Definition cached_property (func : ref -> M string) (self : ref) : M string :=
  i <- deref self ;;
  match ob_dict i with
  | Some val => ret val
  | None =>
      val <- func self ;;
      _ <- dict_store self val ;;
      ret val
  end.

(** ** class uname_result (lines 40-79) *)

Module uname_result.

(** Inherited from the namedtuple. *)
Definition _fields : list string := uname_result_base_fields.

(** The function under the decorator. *)
Definition processor_func (self : ref) : M string :=
  v <- _Processor.get ;;
  ret (_unknown_as_blank v).

Definition processor : ref -> M string := cached_property processor_func.

(** [itertools.chain(super().__iter__(), (self.processor,))]: the one
    element tuple is built, and so the property read, when [__iter__] is
    called; the result is given as the list of the items it yields. *)
Definition __iter__ (self : ref) : M (list string) :=
  items <- namedtuple_iter self ;;
  p <- processor self ;;
  ret (items ++ [p]).

(** [len(tuple(iter(self)))]. *)
Definition __len__ (self : ref) : M Z :=
  t <- __iter__ self ;;
  ret (Z.of_nat (length t)).

(** The class method, with [cls] the class itself. *)
Definition _make (iterable : list string) : M ref :=
  let cls := Cuname_result in
  let num_fields := Z.of_nat (length _fields) in
  result <- namedtuple_new cls iterable ;;
  n <- __len__ result ;;
  if negb (n =? num_fields + 1) then raise TypeError else ret result.

(** [tuple(self)[key]]. *)
Definition __getitem__ (self : ref) (key : Z) : M string :=
  t <- __iter__ self ;;
  tuple_getitem t key.

(** [uname_result, tuple(self)[:len(self._fields)]]. *)
Definition __reduce__ (self : ref) : M (cls * list string) :=
  t <- __iter__ self ;;
  ret (Cuname_result, tuple_slice_to t (Z.of_nat (length _fields))).

End uname_result.

(** ** class uname_result2 (lines 83-124) *)

Module uname_result2.

Definition _fields : list string :=
  ["system"; "node"; "release"; "version"; "machine"; "processor"].

(** The function under the decorator. *)
Definition processor_func (self : ref) : M string :=
  v <- _Processor.get ;;
  ret (_unknown_as_blank v).

Definition processor : ref -> M string := cached_property processor_func.

Definition __iter__ (self : ref) : M (list string) :=
  items <- namedtuple_iter self ;;
  p <- processor self ;;
  ret (items ++ [p]).

Definition __len__ (self : ref) : M Z :=
  t <- __iter__ self ;;
  ret (Z.of_nat (length t)).

Definition _make (iterable : list string) : M ref :=
  let cls := Cuname_result2 in
  let num_fields := Z.of_nat (length _fields) - 1 in
  result <- namedtuple_new cls iterable ;;
  n <- __len__ result ;;
  if negb (n =? num_fields + 1) then raise TypeError else ret result.

Definition __getitem__ (self : ref) (key : Z) : M string :=
  t <- __iter__ self ;;
  tuple_getitem t key.

(** [uname_result, tuple(self)[:len(self._fields) - 1]]: the constructor
    named is the first class, as in the source. *)
Definition __reduce__ (self : ref) : M (cls * list string) :=
  t <- __iter__ self ;;
  ret (Cuname_result, tuple_slice_to t (Z.of_nat (length _fields) - 1)).

End uname_result2.

(** ** Calls that dispatch on the class *)

(** [cls] called on the unpacked [args]. *)
Definition construct (c : cls) (args : list string) : M ref :=
  namedtuple_new c args.

(** [cls._make(iterable)]. *)
Definition make (c : cls) (iterable : list string) : M ref :=
  match c with
  | Cuname_result => uname_result._make iterable
  | Cuname_result2 => uname_result2._make iterable
  end.

(** [cls._fields]. *)
Definition fields_of (c : cls) : list string :=
  match c with
  | Cuname_result => uname_result._fields
  | Cuname_result2 => uname_result2._fields
  end.

(** A method looked up on [type(x)]. *)
Definition method {A} (f1 f2 : ref -> M A) (x : ref) : M A :=
  i <- deref x ;;
  match ob_type i with
  | Cuname_result => f1 x
  | Cuname_result2 => f2 x
  end.

(** [x.processor]. *)
Definition processor : ref -> M string :=
  method uname_result.processor uname_result2.processor.

(** [tuple(x)], also what [for v in x] goes through. *)
Definition to_tuple : ref -> M (list string) :=
  method uname_result.__iter__ uname_result2.__iter__.

(** [len(x)]. *)
Definition len : ref -> M Z :=
  method uname_result.__len__ uname_result2.__len__.

(** [x[key]]. *)
Definition getitem (x : ref) (key : Z) : M string :=
  method (fun x => uname_result.__getitem__ x key)
         (fun x => uname_result2.__getitem__ x key) x.

(** [x.__reduce__()]. *)
Definition reduce : ref -> M (cls * list string) :=
  method uname_result.__reduce__ uname_result2.__reduce__.

(** The five fields of the namedtuple and the property, by name. *)
Inductive field : Set :=
| f_system | f_node | f_release | f_version | f_machine | f_processor.

(** [x.system], ..., [x.machine] read the stored item; [x.processor] is the
    cached property. *)
Definition getfield (x : ref) (f : field) : M string :=
  match f with
  | f_system => i <- deref x ;; ret (system (ob_item i))
  | f_node => i <- deref x ;; ret (node (ob_item i))
  | f_release => i <- deref x ;; ret (release (ob_item i))
  | f_version => i <- deref x ;; ret (version (ob_item i))
  | f_machine => i <- deref x ;; ret (machine (ob_item i))
  | f_processor => processor x
  end.

(** [f, args = x.__reduce__()] followed by the call of [f] on the unpacked
    [args], what [copy.copy] and
    unpickling do with the reduced form. *)
Definition reconstruct (x : ref) : M ref :=
  fa <- reduce x ;;
  construct (fst fa) (snd fa).

(** ** The dataclass and the entry point (lines 127-148) *)

(** [@dataclass class UnameInfo: uname: uname_result2]. *)
Record UnameInfo : Set := mk_UnameInfo { uname : ref }.

(** The standard library's [dataclasses.asdict], on the branches that
    [main] reaches. *)
Module dataclasses.

(** [_asdict_inner] on a [str]: the last branch, [copy.deepcopy(obj)],
    which returns a string as it is. *)
Definition _asdict_inner_str (obj : string) : M string := ret obj.

(** [[_asdict_inner(v, dict_factory) for v in obj]] over the items that
    iterating [obj] gave. *)
Fixpoint _asdict_inner_items (vs : list string) : M (list string) :=
  match vs with
  | [] => ret []
  | v :: vs' =>
      w <- _asdict_inner_str v ;;
      ws <- _asdict_inner_items vs' ;;
      ret (w :: ws)
  end.

(** [_asdict_inner] on an instance of a tuple class that has [_fields]:
    [return type(obj)( *[_asdict_inner(v, dict_factory) for v in obj])]. *)
Definition _asdict_inner_namedtuple (obj : ref) : M ref :=
  i <- deref obj ;;
  vs <- to_tuple obj ;;
  ws <- _asdict_inner_items vs ;;
  construct (ob_type i) ws.

(** [asdict(obj)] on a [UnameInfo]: the pairs [(f.name, value)] over its
    fields, made into a [dict]. *)
Definition asdict (obj : UnameInfo) : M (list (string * ref)) :=
  value <- _asdict_inner_namedtuple (uname obj) ;;
  ret [("uname", value)].

End dataclasses.

(** The body of [main] from the construction on, for given [vals].  The two
    [print] calls write to the standard output only and are left out. *)
Definition main_from (vals : list string) : M (list (string * ref)) :=
  _uname_cache <- construct Cuname_result2 (map _unknown_as_blank vals) ;;
  let s_info := mk_UnameInfo _uname_cache in
  s_info_as_dict <- dataclasses.asdict s_info ;;
  ret s_info_as_dict.

Definition main : M (list (string * ref)) :=
  let _system := "Darwin" in
  let _node := "CHARLESs-MBP.attlocal.net" in
  let _release := "21.5.0" in
  let _version := "Darwin Kernel Version 21.5.0: Tue Apr 26 21:08:22 PDT 2022; root:xnu-8020.121.3~4/RELEASE_X86_64" in
  let _machine := "x86_64" in
  let vals := [_system; _node; _release; _version; _machine] in
  main_from vals.

(** ** Programs of calls *)

(** The calls an outside caller can make on a class [cls] under test and
    on the objects it holds. *)
Inductive call : Set :=
| Construct (args : list string)
| Make (iterable : list string)
| Iterate (x : ref)
| Index (x : ref) (key : Z)
| Length (x : ref)
| Reduce (x : ref)
| Reconstruct (x : ref)
| GetField (x : ref) (f : field).

(** What a call gives back. *)
Inductive value : Set :=
| VRef (r : ref)
| VStr (s : string)
| VInt (n : Z)
| VTuple (t : list string)
| VReduced (f : cls) (args : list string).

Definition fmap_M {A B} (f : A -> B) (m : M A) : M B :=
  a <- m ;; ret (f a).

Definition do_call (c : cls) (k : call) : M value :=
  match k with
  | Construct args => fmap_M VRef (construct c args)
  | Make iterable => fmap_M VRef (make c iterable)
  | Iterate x => fmap_M VTuple (to_tuple x)
  | Index x key => fmap_M VStr (getitem x key)
  | Length x => fmap_M VInt (len x)
  | Reduce x => fmap_M (fun fa => VReduced (fst fa) (snd fa)) (reduce x)
  | Reconstruct x => fmap_M VRef (reconstruct x)
  | GetField x f => fmap_M VStr (getfield x f)
  end.

(** Running a program of calls one after the other, an exception ending
    the call that raised it and not the program; the results in order,
    and the final state. *)
Fixpoint run_calls (c : cls) (prog : list call) (s : state)
  : list (result value) * state :=
  match prog with
  | [] => ([], s)
  | k :: prog' =>
      let (v, s') := do_call c k s in
      let (vs, s'') := run_calls c prog' s' in
      (v :: vs, s'')
  end.

(** A state with no object yet. *)
Definition initial (platform : string) (cmd : nat -> cmd_outcome) : state :=
  mk_state [] platform cmd 0.

(** ** What the calls compute *)

(** The five stored items in order. *)
Definition items (t : uname_result_base) : list string :=
  [system t; node t; release t; version t; machine t].

(** The text a run of the command leaves to the resolver. *)
Definition resolved (o : cmd_outcome) : string :=
  match o with
  | Exit0 out => strip out
  | NonZeroExit | SpawnFailure => ""
  end.

(** The value a first read of [processor] would get in state [s]. *)
Definition next_processor (s : state) : string :=
  _unknown_as_blank (resolved (uname_p s (spawned s))).

(** The value of [processor] for object [i] in state [s]. *)
Definition seen (i : instance) (s : state) : string :=
  match ob_dict i with
  | Some v => v
  | None => next_processor s
  end.

(** The state after [processor] was read on the object [i] at [x]. *)
Definition forced (x : ref) (i : instance) (s : state) : state :=
  match ob_dict i with
  | Some _ => s
  | None =>
      mk_state
        (<[x := mk_instance (ob_type i) (ob_item i) (Some (next_processor s))]>
           (heap s))
        (sys_platform s) (uname_p s) (S (spawned s))
  end.

(** The five eager values of the end-to-end scenario. *)
Definition scenario_vals : list string :=
  ["Darwin"; "host.local"; "21.5.0"; "Darwin Kernel Version 21.5.0 ...";
   "x86_64"].

(** A command that prints [out] at every run. *)
Definition prints (out : string) : nat -> cmd_outcome := fun _ => Exit0 out.


(** The reads of one object that run the resolver when it has not run yet:
    the property, [len], the sequence view, indexing and the reduced form. *)
Inductive access : Set :=
| AProcessor
| ALength
| ASequence
| AIndex (key : Z)
| AReduce.

Definition call_of (x : ref) (a : access) : call :=
  match a with
  | AProcessor => GetField x f_processor
  | ALength => Length x
  | ASequence => Iterate x
  | AIndex key => Index x key
  | AReduce => Reduce x
  end.

(** What a read gives on a record with the stored items [t] whose processor
    value is [p]. *)
Definition expected (t : uname_result_base) (p : string) (a : access)
  : result value :=
  match a with
  | AProcessor => Ok (VStr p)
  | ALength => Ok (VInt 6)
  | ASequence => Ok (VTuple (items t ++ [p]))
  | AIndex key =>
      match tuple_index (items t ++ [p]) key with
      | Ok v => Ok (VStr v)
      | Raise e => Raise e
      end
  | AReduce => Ok (VReduced Cuname_result (items t))
  end.



(** A command that prints [first] at its first run and [later] afterwards. *)
Definition prints_then (first later : string) : nat -> cmd_outcome :=
  fun n => match n with O => Exit0 first | S _ => Exit0 later end.

(** The reference a call reads, when it reads one. *)
Definition reads (k : call) : option ref :=
  match k with
  | Construct _ | Make _ => None
  | Iterate x | Index x _ | Length x | Reduce x | Reconstruct x
  | GetField x _ => Some x
  end.

(** ** Shapes of strings and of stores *)

(** The string begins with a whitespace character. *)
Definition starts_with_space (s : string) : bool :=
  match s with
  | EmptyString => false
  | String c _ => isspace c
  end.

(** The string ends with a whitespace character. *)
Fixpoint ends_with_space (s : string) : bool :=
  match s with
  | EmptyString => false
  | String c EmptyString => isspace c
  | String _ t => ends_with_space t
  end.

(** Every character of the string is whitespace. *)
Fixpoint all_space (s : string) : bool :=
  match s with
  | EmptyString => true
  | String c t => isspace c && all_space t
  end.

(** A processor value as the resolution leaves it: not the word [unknown],
    and no whitespace at either end. *)
Definition clean (v : string) : bool :=
  negb (String.eqb v "unknown")
  && negb (starts_with_space v) && negb (ends_with_space v).

(** The object holds no cached value, or a clean one. *)
Definition clean_object (i : instance) : bool :=
  match ob_dict i with
  | Some v => clean v
  | None => true
  end.

(** The number of objects of a store that hold a cached value. *)
Fixpoint cached (h : list instance) : nat :=
  match h with
  | [] => 0%nat
  | i :: h' =>
      (match ob_dict i with Some _ => 1 | None => 0 end + cached h')%nat
  end.

(** An object later in its life: same class, same stored items, and the
    cached value it had, if it had one. *)
Definition grown (i i' : instance) : Prop :=
  ob_type i' = ob_type i
  /\ ob_item i' = ob_item i
  /\ match ob_dict i with
     | Some v => ob_dict i' = Some v
     | None => True
     end.

(** The position of a field in the sequence view. *)
Definition field_index (f : field) : Z :=
  match f with
  | f_system => 0
  | f_node => 1
  | f_release => 2
  | f_version => 3
  | f_machine => 4
  | f_processor => 5
  end.

(** The result is a value, not an exception. *)
Definition is_ok {A} (r : result A) : bool :=
  match r with
  | Ok _ => true
  | Raise _ => false
  end.

(** ** How a call can change the state *)

(** The three ways the state changes: a record at [y] has its processor
    read ([forced] is the identity when the value is cached already), a
    new record with an empty [__dict__] is allocated, or [_make] allocates
    a record and resolves it at once. *)
Inductive step (s : state) : state -> Prop :=
| step_force (y : ref) (j : instance) :
    heap s !! y = Some j -> step s (forced y j s)
| step_alloc (c : cls) (t : uname_result_base) :
    step s (set_heap (heap s ++ [mk_instance c t None]) s)
| step_make (c : cls) (t : uname_result_base) :
    step s (mk_state
              (heap s ++ [mk_instance c t (Some (next_processor s))])
              (sys_platform s) (uname_p s) (S (spawned s))).
(** A few runs of the string functions and of tuple indexing. *)
Example strip_newline : strip "i386
" = "i386".
Proof. reflexivity. Qed.

Example strip_both_ends : strip "  x86 64	 " = "x86 64".
Proof. reflexivity. Qed.

Example strip_blank : strip "
" = "".
Proof. reflexivity. Qed.

Example unknown_is_blanked :
  map _unknown_as_blank ["unknown"; "Unknown"; ""; "x86_64"]
  = [""; "Unknown"; ""; "x86_64"].
Proof. reflexivity. Qed.

Example index_last : tuple_index ["a"; "b"; "c"] (-1) = Ok "c".
Proof. reflexivity. Qed.

Example index_past : tuple_index ["a"; "b"; "c"] 3 = Raise IndexError.
Proof. reflexivity. Qed.

Example slice_five :
  tuple_slice_to ["a"; "b"; "c"; "d"; "e"; "f"] 5 = ["a"; "b"; "c"; "d"; "e"].
Proof. reflexivity. Qed.


Lemma get_eq s :
  _Processor.get s = (Ok (resolved (uname_p s (spawned s))), tick s).
Proof.
  unfold _Processor.get, _Processor.getattr, _Processor.from_subprocess,
    _Processor.check_output, try_except, bind, ret; simpl.
  destruct (uname_p s (spawned s)) as [out| |]; simpl; try reflexivity.
  destruct (strip out); reflexivity.
Qed.

Lemma processor_func_eq x s :
  uname_result.processor_func x s = (Ok (next_processor s), tick s).
Proof.
  unfold uname_result.processor_func, bind. rewrite get_eq. reflexivity.
Qed.

Lemma processor_func2_eq x s :
  uname_result2.processor_func x s = (Ok (next_processor s), tick s).
Proof.
  unfold uname_result2.processor_func, bind. rewrite get_eq. reflexivity.
Qed.

Lemma cached_property_eq func x i s :
  heap s !! x = Some i ->
  (forall s', func x s' = (Ok (next_processor s'), tick s')) ->
  cached_property func x s = (Ok (seen i s), forced x i s).
Proof.
  intros Hx Hf. unfold cached_property, bind, deref, seen, forced.
  rewrite Hx. destruct (ob_dict i) as [v|]; [reflexivity|].
  rewrite Hf. unfold dict_store, tick, set_heap; simpl. rewrite Hx.
  reflexivity.
Qed.

Lemma method_eq {A} (f1 f2 : ref -> M A) x i s :
  heap s !! x = Some i ->
  method f1 f2 x s =
    match ob_type i with Cuname_result => f1 x s | Cuname_result2 => f2 x s end.
Proof.
  intros Hx. unfold method, bind, deref. rewrite Hx.
  destruct (ob_type i); reflexivity.
Qed.

Lemma method_dangling {A} (f1 f2 : ref -> M A) x s :
  heap s !! x = None -> method f1 f2 x s = (Raise SystemError, s).
Proof. intros Hx. unfold method, bind, deref. rewrite Hx. reflexivity. Qed.

Lemma processor_eq x i s :
  heap s !! x = Some i -> processor x s = (Ok (seen i s), forced x i s).
Proof.
  intros Hx. unfold processor. rewrite (method_eq _ _ x i s Hx).
  destruct (ob_type i).
  - apply cached_property_eq; [exact Hx | apply processor_func_eq].
  - apply cached_property_eq; [exact Hx | apply processor_func2_eq].
Qed.

Lemma heap_forced x i s :
  heap s !! x = Some i ->
  heap (forced x i s) !! x
  = Some (mk_instance (ob_type i) (ob_item i) (Some (seen i s))).
Proof.
  intros Hx. unfold forced, seen. destruct i as [c t [v|]]; simpl in *.
  - exact Hx.
  - apply list_lookup_insert_eq. eapply lookup_lt_Some; exact Hx.
Qed.

Lemma heap_forced_ne x y i s :
  x <> y -> heap (forced x i s) !! y = heap s !! y.
Proof.
  intros Hne. unfold forced. destruct (ob_dict i); simpl; [reflexivity|].
  apply list_lookup_insert_ne; exact Hne.
Qed.

Lemma length_heap_forced x i s :
  length (heap (forced x i s)) = length (heap s).
Proof.
  unfold forced. destruct (ob_dict i); simpl; [reflexivity|].
  apply length_insert.
Qed.

Lemma iter_eq x i s :
  heap s !! x = Some i ->
  to_tuple x s = (Ok (items (ob_item i) ++ [seen i s]), forced x i s).
Proof.
  intros Hx. unfold to_tuple. rewrite (method_eq _ _ x i s Hx).
  assert (H1 : uname_result.__iter__ x s
               = (Ok (items (ob_item i) ++ [seen i s]), forced x i s)).
  { unfold uname_result.__iter__, namedtuple_iter, bind, deref, ret.
    rewrite Hx. unfold uname_result.processor.
    rewrite (cached_property_eq _ x i s Hx (processor_func_eq x)). reflexivity. }
  assert (H2 : uname_result2.__iter__ x s
               = (Ok (items (ob_item i) ++ [seen i s]), forced x i s)).
  { unfold uname_result2.__iter__, namedtuple_iter, bind, deref, ret.
    rewrite Hx. unfold uname_result2.processor.
    rewrite (cached_property_eq _ x i s Hx (processor_func2_eq x)). reflexivity. }
  destruct (ob_type i); assumption.
Qed.

(** [__len__], [__getitem__] and [__reduce__] all start by collecting
    [__iter__]: bring its equation, in both classes, into the goal. *)
Ltac via_iter Hx :=
  match type of Hx with
  | heap ?s !! ?x = Some ?i =>
      let Hi := fresh "Hi" in
      pose proof (iter_eq x i s Hx) as Hi; unfold to_tuple in Hi;
      rewrite (method_eq _ _ x i s Hx) in Hi;
      rewrite (method_eq _ _ x i s Hx);
      unfold uname_result.__len__, uname_result2.__len__,
        uname_result.__getitem__, uname_result2.__getitem__,
        uname_result.__reduce__, uname_result2.__reduce__, bind;
      destruct (ob_type i); rewrite Hi; reflexivity
  end.

Lemma len_eq x i s :
  heap s !! x = Some i -> len x s = (Ok 6, forced x i s).
Proof. intros Hx. unfold len. via_iter Hx. Qed.

Lemma getitem_eq x i s key :
  heap s !! x = Some i ->
  getitem x key s
  = tuple_getitem (items (ob_item i) ++ [seen i s]) key (forced x i s).
Proof. intros Hx. unfold getitem. via_iter Hx. Qed.

Lemma reduce_eq x i s :
  heap s !! x = Some i ->
  reduce x s = (Ok (Cuname_result, items (ob_item i)), forced x i s).
Proof. intros Hx. unfold reduce. via_iter Hx. Qed.

Lemma construct_eq c a0 a1 a2 a3 a4 s :
  construct c [a0; a1; a2; a3; a4] s
  = (Ok (length (heap s)),
     set_heap (heap s ++ [mk_instance c (mk_base a0 a1 a2 a3 a4) None]) s).
Proof. reflexivity. Qed.

Lemma construct_items c t s :
  construct c (items t) s
  = (Ok (length (heap s)), set_heap (heap s ++ [mk_instance c t None]) s).
Proof. destruct t. reflexivity. Qed.

Lemma construct_arity c args s :
  length args <> 5%nat -> construct c args s = (Raise TypeError, s).
Proof.
  intros H. unfold construct, namedtuple_new.
  destruct args as [|a0 [|a1 [|a2 [|a3 [|a4 [|a5 args]]]]]];
    try reflexivity.
  simpl in H. congruence.
Qed.

Lemma lookup_fresh (h : list instance) (i : instance) :
  (h ++ [i]) !! length h = Some i.
Proof. apply list_lookup_middle. reflexivity. Qed.

Lemma insert_fresh (h : list instance) (i j : instance) :
  <[length h := j]> (h ++ [i]) = h ++ [j].
Proof.
  rewrite insert_app_r_alt by lia. rewrite Nat.sub_diag. reflexivity.
Qed.

Lemma make_eq c a0 a1 a2 a3 a4 s :
  make c [a0; a1; a2; a3; a4] s
  = (Ok (length (heap s)),
     mk_state
       (heap s ++ [mk_instance c (mk_base a0 a1 a2 a3 a4)
                     (Some (next_processor s))])
       (sys_platform s) (uname_p s) (S (spawned s))).
Proof.
  set (i := mk_instance c (mk_base a0 a1 a2 a3 a4) None).
  set (s1 := set_heap (heap s ++ [i]) s).
  assert (Hx : heap s1 !! length (heap s) = Some i) by apply lookup_fresh.
  pose proof (len_eq _ _ _ Hx) as Hl. unfold len in Hl.
  rewrite (method_eq _ _ _ _ _ Hx) in Hl.
  assert (Hf : forced (length (heap s)) i s1
               = mk_state
                   (heap s ++ [mk_instance c (mk_base a0 a1 a2 a3 a4)
                                 (Some (next_processor s))])
                   (sys_platform s) (uname_p s) (S (spawned s))).
  { unfold forced, s1, i; simpl. rewrite insert_fresh. reflexivity. }
  destruct c; unfold make, uname_result._make, uname_result2._make, bind;
    simpl namedtuple_new; fold i; unfold alloc; fold s1;
    simpl ob_type in Hl; rewrite Hl, Hf; reflexivity.
Qed.

Lemma make_arity c args s :
  length args <> 5%nat -> make c args s = (Raise TypeError, s).
Proof.
  intros H.
  destruct c; unfold make, uname_result._make, uname_result2._make, bind;
    fold (construct Cuname_result args); fold (construct Cuname_result2 args);
    rewrite construct_arity by exact H; reflexivity.
Qed.

Lemma reconstruct_eq x i s :
  heap s !! x = Some i ->
  reconstruct x s
  = (Ok (length (heap s)),
     set_heap (heap (forced x i s)
               ++ [mk_instance Cuname_result (ob_item i) None])
       (forced x i s)).
Proof.
  intros Hx. unfold reconstruct, bind. rewrite (reduce_eq x i s Hx).
  simpl fst; simpl snd. rewrite construct_items, length_heap_forced.
  reflexivity.
Qed.

Lemma asdict_inner_items_eq vs s :
  dataclasses._asdict_inner_items vs s = (Ok vs, s).
Proof.
  revert s. induction vs as [|v vs IH]; intros s; [reflexivity|].
  simpl. unfold bind, dataclasses._asdict_inner_str, ret. rewrite IH.
  reflexivity.
Qed.

(** [asdict] on a [UnameInfo] holding any object of either class raises
    [TypeError]: the six items of the iteration are passed to a constructor
    that takes five. *)
Lemma asdict_raises x i s :
  heap s !! x = Some i ->
  dataclasses.asdict (mk_UnameInfo x) s = (Raise TypeError, forced x i s).
Proof.
  intros Hx.
  unfold dataclasses.asdict, dataclasses._asdict_inner_namedtuple, bind,
    deref; simpl uname.
  rewrite Hx, (iter_eq x i s Hx), asdict_inner_items_eq.
  destruct i as [c [b0 b1 b2 b3 b4] d]; reflexivity.
Qed.

Lemma main_from_raises a0 a1 a2 a3 a4 s :
  fst (main_from [a0; a1; a2; a3; a4] s) = Raise TypeError.
Proof.
  unfold main_from, bind. simpl map. rewrite construct_eq.
  erewrite asdict_raises by apply lookup_fresh. reflexivity.
Qed.

(** * The claims *)

(** C1: in the end-to-end scenario (the five eager values of the
    specification, [uname -p] printing [i386]) the full sequence view is the
    six values in order; but the conversion that the entry point makes,
    [asdict] on the [UnameInfo] that holds the record, does not give a field
    mapping: it raises [TypeError], on the scenario's values and on the
    literals of [main] alike. *)
Theorem C1_sequence_ok_asdict_raises (platform : string) :
  let s0 := initial platform (prints "i386") in
  fst ((x <- construct Cuname_result2 (map _unknown_as_blank scenario_vals) ;;
        to_tuple x) s0)
  = Ok ["Darwin"; "host.local"; "21.5.0"; "Darwin Kernel Version 21.5.0 ...";
        "x86_64"; "i386"]
  /\ fst (main_from scenario_vals s0) = Raise TypeError
  /\ fst (main s0) = Raise TypeError.
Proof.
  intros s0. split; [reflexivity | split].
  - apply main_from_raises.
  - unfold main. apply main_from_raises.
Qed.

Lemma unknown_as_blank_not_unknown v : _unknown_as_blank v <> "unknown".
Proof.
  unfold _unknown_as_blank.
  destruct (String.eqb_spec v "unknown") as [->|Hne]; [discriminate | exact Hne].
Qed.

Lemma stored_items_eq c a0 a1 a2 a3 a4 s :
  fst ((x <- construct c [a0; a1; a2; a3; a4] ;; namedtuple_iter x) s)
  = Ok [a0; a1; a2; a3; a4].
Proof.
  unfold bind. rewrite construct_eq.
  unfold namedtuple_iter, bind, deref. simpl heap. rewrite lookup_fresh.
  reflexivity.
Qed.

(** C2, as stated, fails: the constructor of either class stores the word
    [unknown] as it is given. *)
Lemma C2_constructor_keeps_unknown :
  let s0 := initial "linux" (prints "i386") in
  let args := ["unknown"; "host.local"; "21.5.0"; "#1 SMP"; "x86_64"] in
  fst ((x <- construct Cuname_result2 args ;; getfield x f_system) s0)
  = Ok "unknown"
  /\ fst ((x <- construct Cuname_result args ;; getfield x f_system) s0)
     = Ok "unknown"
  /\ fst ((x <- construct Cuname_result2 args ;; getfield x f_system) s0)
     <> Ok "".
Proof. repeat split. discriminate. Qed.

(** C2, amended: the constructors store the five eager arguments unchanged;
    it is the caller, as [main] does with [map(_unknown_as_blank, vals)],
    that normalizes them.  On that path every stored field is
    [_unknown_as_blank] of the value given, so the word [unknown] is stored
    as the empty string and no stored eager field is the word [unknown]. *)
Theorem C2_normalized_by_caller (c : cls) (a0 a1 a2 a3 a4 : string)
    (s : state) :
  let vals := [a0; a1; a2; a3; a4] in
  fst ((x <- construct c vals ;; namedtuple_iter x) s) = Ok vals
  /\ fst ((x <- construct c (map _unknown_as_blank vals) ;;
           namedtuple_iter x) s)
     = Ok (map _unknown_as_blank vals)
  /\ _unknown_as_blank "unknown" = ""
  /\ Forall (fun v => negb (String.eqb v "unknown") = true)
       (map _unknown_as_blank vals).
Proof.
  intros vals. split; [apply stored_items_eq|].
  split; [apply stored_items_eq|]. split; [reflexivity|].
  apply Forall_forall. intros v Hv.
  apply list_elem_of_fmap in Hv as [w [-> _]].
  apply negb_true_iff. apply String.eqb_neq. apply unknown_as_blank_not_unknown.
Qed.

(** C4: for every five strings, constructing the record and taking its full
    sequence view gives the five values in order followed by a sixth that
    is the value of one call of the resolver, the function under the
    [processor] property, made in the state the view is taken in; the
    command is run once. *)
Theorem C4_sequence_view (c : cls) (a0 a1 a2 a3 a4 : string) (s : state) :
  exists x s1 p s1' s2,
    construct c [a0; a1; a2; a3; a4] s = (Ok x, s1)
    /\ uname_result.processor_func x s1 = (Ok p, s1')
    /\ uname_result2.processor_func x s1 = (Ok p, s1')
    /\ to_tuple x s1 = (Ok [a0; a1; a2; a3; a4; p], s2)
    /\ spawned s2 = S (spawned s)
    /\ spawned s1' = S (spawned s).
Proof.
  eexists _, _, _, _, _. split; [apply construct_eq|].
  split; [apply processor_func_eq|]. split; [apply processor_func2_eq|].
  split.
  - erewrite iter_eq by apply lookup_fresh. reflexivity.
  - split; reflexivity.
Qed.

Lemma seen_forced x i s :
  heap s !! x = Some i ->
  exists i', heap (forced x i s) !! x = Some i'
             /\ ob_item i' = ob_item i
             /\ ob_type i' = ob_type i
             /\ ob_dict i' = Some (seen i s).
Proof.
  intros Hx. eexists. split; [apply heap_forced; exact Hx|]. auto.
Qed.

Lemma spawned_forced x i s :
  spawned (forced x i s)
  = match ob_dict i with Some _ => spawned s | None => S (spawned s) end.
Proof. unfold forced. destruct (ob_dict i); reflexivity. Qed.

Lemma do_access_eq c x i s a :
  heap s !! x = Some i ->
  do_call c (call_of x a) s = (expected (ob_item i) (seen i s) a, forced x i s).
Proof.
  intros Hx. destruct a; simpl; unfold fmap_M, bind.
  - rewrite (processor_eq x i s Hx). reflexivity.
  - rewrite (len_eq x i s Hx). reflexivity.
  - rewrite (iter_eq x i s Hx). reflexivity.
  - rewrite (getitem_eq x i s key Hx). unfold tuple_getitem.
    destruct (tuple_index _ key); reflexivity.
  - rewrite (reduce_eq x i s Hx). reflexivity.
Qed.

Lemma run_accesses_eq c x accs :
  forall i s,
    heap s !! x = Some i ->
    fst (run_calls c (map (call_of x) accs) s)
    = map (expected (ob_item i) (seen i s)) accs
    /\ (accs <> [] ->
        snd (run_calls c (map (call_of x) accs) s) = forced x i s)
    /\ (accs = [] -> snd (run_calls c (map (call_of x) accs) s) = s).
Proof.
  induction accs as [|a accs IH]; intros i s Hx.
  - simpl. split; [reflexivity|]. split; [congruence | reflexivity].
  - cbn [map run_calls]. rewrite (do_access_eq c x i s a Hx).
    destruct (seen_forced x i s Hx) as (i' & Hx' & Hitem & _ & Hdict).
    destruct (IH i' (forced x i s) Hx') as (Hv & Hs & Hnil).
    destruct (run_calls c (map (call_of x) accs) (forced x i s))
      as [vs s2] eqn:Hrun.
    simpl in *.
    assert (Hseen : seen i' (forced x i s) = seen i s).
    { unfold seen at 1. rewrite Hdict. reflexivity. }
    assert (Hforced : forced x i' (forced x i s) = forced x i s).
    { unfold forced at 1. rewrite Hdict. reflexivity. }
    rewrite Hv, Hitem, Hseen. split; [reflexivity|].
    split; [|congruence]. intros _.
    destruct accs as [|a' accs'].
    + apply Hnil. reflexivity.
    + rewrite Hs by congruence. exact Hforced.
Qed.

(** ** The two classes side by side *)









Lemma five_args (args : list string) :
  length args = 5%nat ->
  exists a0 a1 a2 a3 a4, args = [a0; a1; a2; a3; a4].
Proof.
  intros H.
  destruct args as [|a0 [|a1 [|a2 [|a3 [|a4 [|a5 args]]]]]]; try discriminate.
  eauto 6.
Qed.

Lemma getfield_eq x i s f :
  heap s !! x = Some i ->
  getfield x f s
  = match f with
    | f_system => (Ok (system (ob_item i)), s)
    | f_node => (Ok (node (ob_item i)), s)
    | f_release => (Ok (release (ob_item i)), s)
    | f_version => (Ok (version (ob_item i)), s)
    | f_machine => (Ok (machine (ob_item i)), s)
    | f_processor => (Ok (seen i s), forced x i s)
    end.
Proof.
  intros Hx. destruct f; unfold getfield, bind, deref; rewrite ?Hx;
    try reflexivity.
  apply processor_eq; exact Hx.
Qed.

Lemma do_call_dangling c k x s :
  reads k = Some x -> heap s !! x = None ->
  do_call c k s = (Raise SystemError, s).
Proof.
  intros Hk Hx.
  destruct k as [| | | | | | |y f]; simpl in Hk; inversion Hk; subst;
    simpl; unfold fmap_M, bind;
    try (unfold to_tuple, getitem, len, reduce;
         rewrite method_dangling by exact Hx; reflexivity).
  - unfold reconstruct, bind, reduce.
    rewrite method_dangling by exact Hx. reflexivity.
  - destruct f; unfold getfield, bind, deref, processor;
      rewrite ?method_dangling by exact Hx; rewrite ?Hx; reflexivity.
Qed.

(** Once a value is cached, no call on any object changes the record. *)
Lemma do_call_keeps_cached c k s x i v :
  heap s !! x = Some i -> ob_dict i = Some v ->
  heap (snd (do_call c k s)) !! x = Some i.
Proof.
  intros Hx Hd. pose proof (lookup_lt_Some _ _ _ Hx) as Hlt.
  assert (Hforced : forall y j, heap s !! y = Some j ->
                      heap (forced y j s) !! x = Some i).
  { intros y j Hy. destruct (decide (y = x)) as [->|Hne].
    - rewrite Hx in Hy. inversion Hy; subst j.
      unfold forced. rewrite Hd. exact Hx.
    - rewrite heap_forced_ne by exact Hne. exact Hx. }
  destruct (reads k) as [y|] eqn:Hk.
  - destruct (heap s !! y) as [j|] eqn:Hy.
    + destruct k as [| |z|z key|z|z|z|z f]; simpl in Hk; inversion Hk; subst;
        simpl; unfold fmap_M, bind.
      * rewrite (iter_eq y j s Hy). apply Hforced; exact Hy.
      * rewrite (getitem_eq y j s key Hy). unfold tuple_getitem.
        destruct (tuple_index _ key); apply Hforced; exact Hy.
      * rewrite (len_eq y j s Hy). apply Hforced; exact Hy.
      * rewrite (reduce_eq y j s Hy). apply Hforced; exact Hy.
      * rewrite (reconstruct_eq y j s Hy). simpl.
        rewrite lookup_app_l by (rewrite length_heap_forced; exact Hlt).
        apply Hforced; exact Hy.
      * rewrite (getfield_eq y j s f Hy).
        destruct f; simpl; try exact Hx. apply Hforced; exact Hy.
    + rewrite (do_call_dangling c k y s Hk Hy). exact Hx.
  - destruct k as [args|args| | | | | |]; simpl in Hk; try discriminate;
      simpl; unfold fmap_M, bind;
      destruct (decide (length args = 5%nat)) as [Hlen|Hlen].
    + destruct (five_args args Hlen) as (a0 & a1 & a2 & a3 & a4 & ->).
      rewrite construct_eq. simpl. rewrite lookup_app_l by exact Hlt.
      exact Hx.
    + rewrite construct_arity by exact Hlen. exact Hx.
    + destruct (five_args args Hlen) as (a0 & a1 & a2 & a3 & a4 & ->).
      rewrite make_eq. simpl. rewrite lookup_app_l by exact Hlt. exact Hx.
    + rewrite make_arity by exact Hlen. exact Hx.
Qed.

Lemma run_calls_keeps_cached c prog x i v :
  ob_dict i = Some v ->
  forall s, heap s !! x = Some i ->
            heap (snd (run_calls c prog s)) !! x = Some i.
Proof.
  intros Hd. induction prog as [|k prog IH]; intros s Hx; [exact Hx|].
  cbn [run_calls].
  pose proof (do_call_keeps_cached c k s x i v Hx Hd) as Hx'.
  destruct (do_call c k s) as [w s']. simpl in Hx'.
  specialize (IH s' Hx').
  destruct (run_calls c prog s') as [ws s'']. exact IH.
Qed.

(** C5: take any record, at any point of its life, and read it any number
    of times in any order through the property, [len], the sequence view,
    indexing or the reduced form.  Every read sees one and the same
    processor value; the command is run at most once over all the reads,
    and not at all when the value was already cached, in which case the
    value read is the cached one.  And after one such read, whatever
    program of calls follows, on this object or on others, the record still
    holds that value in its [__dict__]. *)
Theorem C5_resolved_once (c : cls) (x : ref) (i : instance) (s : state)
    (accs : list access) :
  heap s !! x = Some i ->
  let r := run_calls c (map (call_of x) accs) s in
  fst r = map (expected (ob_item i) (seen i s)) accs
  /\ (spawned (snd r) <= S (spawned s))%nat
  /\ (spawned s <= spawned (snd r))%nat
  /\ match ob_dict i with
     | Some v => spawned (snd r) = spawned s /\ seen i s = v
     | None => seen i s = next_processor s
     end
  /\ forall (a : access) (prog : list call),
       heap (snd (run_calls c (call_of x a :: prog) s)) !! x
       = Some (mk_instance (ob_type i) (ob_item i) (Some (seen i s))).
Proof.
  intros Hx r. subst r.
  destruct (run_accesses_eq c x accs i s Hx) as (Hv & Hs & Hnil).
  split; [exact Hv|].
  assert (Hsp : snd (run_calls c (map (call_of x) accs) s) = s
                \/ snd (run_calls c (map (call_of x) accs) s) = forced x i s).
  { destruct accs; [left; apply Hnil; reflexivity | right; apply Hs; congruence]. }
  pose proof (spawned_forced x i s) as Hf.
  assert (Hlife : forall (a : access) (prog : list call),
             heap (snd (run_calls c (call_of x a :: prog) s)) !! x
             = Some (mk_instance (ob_type i) (ob_item i) (Some (seen i s)))).
  { intros a prog. cbn [run_calls]. rewrite (do_access_eq c x i s a Hx).
    pose proof (run_calls_keeps_cached c prog x
                  (mk_instance (ob_type i) (ob_item i) (Some (seen i s)))
                  (seen i s) eq_refl
                  (forced x i s) (heap_forced x i s Hx)) as Hk.
    destruct (run_calls c prog (forced x i s)) as [vs s2]. exact Hk. }
  destruct Hsp as [-> | ->]; unfold seen in *;
    destruct (ob_dict i) as [v|]; rewrite ?Hf;
    (split; [lia|]); (split; [lia|]); (split; [|exact Hlife]);
    repeat split.
Qed.

Lemma C5_resolved_once_witness :
  let i := mk_instance Cuname_result2
             (mk_base "Darwin" "host.local" "21.5.0" "#1" "x86_64") None in
  let s := mk_state [i] "darwin" (prints_then "i386" "arm") 0 in
  let accs := [AProcessor; ALength; ASequence; AIndex 5; AProcessor] in
  heap s !! 0%nat = Some i
  /\ fst (run_calls Cuname_result2 (map (call_of 0%nat) accs) s)
     = map (expected (ob_item i) (seen i s)) accs
  /\ seen i s = "i386"
  /\ (spawned (snd (run_calls Cuname_result2 (map (call_of 0%nat) accs) s))
      <= 1)%nat.
Proof.
  intros i s accs.
  pose proof (C5_resolved_once Cuname_result2 0%nat i s accs eq_refl)
    as (Hv & Hle & _).
  split; [reflexivity|]. split; [exact Hv|]. split; [reflexivity | exact Hle].
Defined.



(** The declared field lists do differ, five names against six; the
    arithmetic of [_make] and [__reduce__] makes up for it. *)
Lemma fields_bookkeeping :
  length (fields_of Cuname_result) = 5%nat
  /\ length (fields_of Cuname_result2) = 6%nat
  /\ Z.of_nat (length uname_result._fields) + 1
     = Z.of_nat (length uname_result2._fields) - 1 + 1.
Proof. repeat split. Qed.


(** ** The reduced form *)

(** C6: the reduced form of any record is a constructor, the first class,
    with exactly the five stored items: the cached processor value is not
    among them.  Calling that constructor on them gives a new object,
    distinct from the original, whose five stored fields are the
    original's and whose [__dict__] is empty, while the original keeps its
    cached value; a first read of [processor] on the copy runs the command
    again. *)
Theorem C6_reduced_form_roundtrip (x : ref) (i : instance) (s : state) :
  heap s !! x = Some i ->
  exists s1 y s2,
    reduce x s = (Ok (Cuname_result, items (ob_item i)), s1)
    /\ length (items (ob_item i)) = 5%nat
    /\ construct Cuname_result (items (ob_item i)) s1 = (Ok y, s2)
    /\ reconstruct x s = (Ok y, s2)
    /\ bool_decide (y = x) = false
    /\ heap s2 !! y = Some (mk_instance Cuname_result (ob_item i) None)
    /\ heap s2 !! x
       = Some (mk_instance (ob_type i) (ob_item i) (Some (seen i s)))
    /\ namedtuple_iter y s2 = (Ok (items (ob_item i)), s2)
    /\ fst (processor y s2) = Ok (next_processor s2)
    /\ spawned (snd (processor y s2)) = S (spawned s2).
Proof.
  intros Hx.
  pose proof (lookup_lt_Some _ _ _ Hx) as Hlt.
  set (s1 := forced x i s).
  set (j := mk_instance Cuname_result (ob_item i) None).
  assert (Hy : heap (set_heap (heap s1 ++ [j]) s1) !! length (heap s1)
               = Some j) by apply lookup_fresh.
  exists s1, (length (heap s1)), (set_heap (heap s1 ++ [j]) s1).
  split; [apply reduce_eq; exact Hx|]. split; [reflexivity|].
  split; [apply construct_items|].
  split.
  { rewrite (reconstruct_eq x i s Hx). unfold s1.
    rewrite length_heap_forced. reflexivity. }
  split.
  { apply bool_decide_eq_false. unfold s1. rewrite length_heap_forced. lia. }
  split; [exact Hy|].
  split.
  { simpl heap. rewrite lookup_app_l.
    - apply heap_forced; exact Hx.
    - unfold s1. rewrite length_heap_forced. exact Hlt. }
  split.
  { unfold namedtuple_iter, bind, deref. rewrite Hy. reflexivity. }
  rewrite (processor_eq _ _ _ Hy). split; reflexivity.
Qed.

Lemma C6_reduced_form_roundtrip_witness :
  let i := mk_instance Cuname_result2
             (mk_base "Darwin" "host.local" "21.5.0" "#1" "x86_64") None in
  let s := mk_state [i] "darwin" (prints_then "i386" "arm") 0 in
  heap s !! 0%nat = Some i
  /\ fst (reduce 0%nat s)
     = Ok (Cuname_result, ["Darwin"; "host.local"; "21.5.0"; "#1"; "x86_64"])
  /\ fst ((y <- reconstruct 0%nat ;; to_tuple y) s)
     = Ok ["Darwin"; "host.local"; "21.5.0"; "#1"; "x86_64"; "arm"]
  /\ fst ((y <- reconstruct 0%nat ;; to_tuple 0%nat) s)
     = Ok ["Darwin"; "host.local"; "21.5.0"; "#1"; "x86_64"; "i386"].
Proof.
  intros i s.
  destruct (C6_reduced_form_roundtrip 0%nat i s eq_refl)
    as (s1 & y & s2 & Hred & _).
  split; [reflexivity|]. split; [rewrite Hred; reflexivity|].
  split; reflexivity.
Defined.

(** ** Length and indexing *)

(** C7: a record constructed from five eager values, by the constructor or
    by [_make], has length 6 and its iteration yields exactly six
    elements. *)
Theorem C7_six_fields (c : cls) (a0 a1 a2 a3 a4 : string) (s : state) :
  fst ((x <- construct c [a0; a1; a2; a3; a4] ;; len x) s) = Ok 6
  /\ fst ((x <- make c [a0; a1; a2; a3; a4] ;; len x) s) = Ok 6
  /\ exists t,
       fst ((x <- construct c [a0; a1; a2; a3; a4] ;; to_tuple x) s) = Ok t
       /\ length t = 6%nat.
Proof.
  split; [|split].
  - unfold bind. rewrite construct_eq.
    erewrite len_eq by apply lookup_fresh. reflexivity.
  - unfold bind. rewrite make_eq.
    erewrite len_eq by apply lookup_fresh. reflexivity.
  - eexists. unfold bind. rewrite construct_eq.
    erewrite iter_eq by apply lookup_fresh. split; reflexivity.
Qed.

Lemma tuple_index_range (t : list string) (key : Z) :
  let n := Z.of_nat (length t) in
  if (- n <=? key) && (key <? n)
  then exists v, tuple_index t key = Ok v
  else tuple_index t key = Raise IndexError.
Proof.
  intros n. unfold tuple_index. fold n.
  destruct (Z.leb_spec (- n) key), (Z.ltb_spec key n), (Z.ltb_spec key 0);
    simpl;
    repeat match goal with
      | |- context [?a <=? ?b] => destruct (Z.leb_spec a b); try lia
      | |- context [?a <? ?b] => destruct (Z.ltb_spec a b); try lia
      end; simpl; try reflexivity.
  - destruct (lookup_lt_is_Some_2 t (Z.to_nat (key + n))) as [v ->];
      [unfold n in *; lia | eauto].
  - destruct (lookup_lt_is_Some_2 t (Z.to_nat key)) as [v ->];
      [unfold n in *; lia | eauto].
Qed.

(** C8: indexing a record is indexing its six-element view.  Index 5 and
    index -1 give the processor value, with the effect of reading the
    property; an index from -6 to 5 gives an element; index 6 and every
    other index outside that range raise [IndexError]. *)
Theorem C8_indexing (x : ref) (i : instance) (s : state) (key : Z) :
  heap s !! x = Some i ->
  getitem x 5 s = processor x s
  /\ getitem x (-1) s = processor x s
  /\ fst (getitem x 6 s) = Raise IndexError
  /\ getitem x key s
     = (tuple_index (items (ob_item i) ++ [seen i s]) key, forced x i s)
  /\ if (-6 <=? key) && (key <? 6)
     then exists v, fst (getitem x key s) = Ok v
     else fst (getitem x key s) = Raise IndexError.
Proof.
  intros Hx. rewrite !(getitem_eq x i s _ Hx), (processor_eq x i s Hx).
  unfold tuple_getitem. repeat split.
  exact (tuple_index_range (items (ob_item i) ++ [seen i s]) key).
Qed.

Lemma C8_indexing_witness :
  let i := mk_instance Cuname_result
             (mk_base "Darwin" "host.local" "21.5.0" "#1" "x86_64") None in
  let s := mk_state [i] "darwin" (prints "i386") 0 in
  heap s !! 0%nat = Some i
  /\ fst (getitem 0%nat 5 s) = Ok "i386"
  /\ fst (getitem 0%nat (-1) s) = Ok "i386"
  /\ fst (getitem 0%nat 6 s) = Raise IndexError
  /\ fst (getitem 0%nat (-7) s) = Raise IndexError.
Proof.
  intros i s.
  destruct (C8_indexing 0%nat i s (-7) eq_refl) as (H5 & H1 & H6 & _ & H7).
  split; [reflexivity|]. split; [rewrite H5; reflexivity|].
  split; [rewrite H1; reflexivity|]. split; [exact H6 | exact H7].
Defined.

(** ** Failures of the command *)

(** C9: when the command cannot be started or exits with a status other
    than 0, the exception is caught in [from_subprocess], which returns
    [None], and [get] returns the empty string; when the command prints
    text, [get] returns it stripped.  In every case the function under the
    property returns, never raises, and returns the empty string when the
    resolver gave the word [unknown]; so a read of [processor] on any
    record returns a value, which for a first read is that string. *)
Theorem C9_failures_suppressed (x : ref) (i : instance) (s : state) :
  heap s !! x = Some i ->
  match uname_p s (spawned s) with
  | Exit0 out =>
      _Processor.from_subprocess s = (Ok (Some (strip out)), tick s)
      /\ _Processor.get s = (Ok (strip out), tick s)
  | NonZeroExit | SpawnFailure =>
      _Processor.check_output s
      = (Raise (match uname_p s (spawned s) with
                | SpawnFailure => OSError
                | _ => CalledProcessError
                end), tick s)
      /\ _Processor.from_subprocess s = (Ok None, tick s)
      /\ _Processor.get s = (Ok "", tick s)
  end
  /\ uname_result.processor_func x s
     = (Ok (_unknown_as_blank (resolved (uname_p s (spawned s)))), tick s)
  /\ uname_result2.processor_func x s
     = (Ok (_unknown_as_blank (resolved (uname_p s (spawned s)))), tick s)
  /\ _unknown_as_blank "unknown" = ""
  /\ fst (processor x s)
     = Ok (match ob_dict i with
           | Some v => v
           | None => _unknown_as_blank (resolved (uname_p s (spawned s)))
           end).
Proof.
  intros Hx. split.
  { pose proof (get_eq s) as Hg.
    unfold _Processor.from_subprocess, _Processor.check_output, try_except,
      bind, ret.
    destruct (uname_p s (spawned s)) as [out| |] eqn:Ho; simpl in *;
      repeat split; exact Hg. }
  split; [apply processor_func_eq|]. split; [apply processor_func2_eq|].
  split; [reflexivity|].
  rewrite (processor_eq x i s Hx). reflexivity.
Qed.

Lemma C9_failures_suppressed_witness :
  let i := mk_instance Cuname_result
             (mk_base "Linux" "host.local" "6.1" "#1" "x86_64") None in
  let failing := mk_state [i] "linux" (fun _ => SpawnFailure) 0 in
  let nonzero := mk_state [i] "linux" (fun _ => NonZeroExit) 0 in
  let unknown := mk_state [i] "linux" (prints "unknown
") 0 in
  heap failing !! 0%nat = Some i
  /\ _Processor.get failing = (Ok "", tick failing)
  /\ _Processor.get nonzero = (Ok "", tick nonzero)
  /\ _Processor.get unknown = (Ok "unknown", tick unknown)
  /\ fst (processor 0%nat failing) = Ok ""
  /\ fst (processor 0%nat nonzero) = Ok ""
  /\ fst (processor 0%nat unknown) = Ok "".
Proof.
  intros i failing nonzero unknown.
  destruct (C9_failures_suppressed 0%nat i failing eq_refl)
    as ((_ & _ & Hf) & _ & _ & _ & Hpf).
  destruct (C9_failures_suppressed 0%nat i nonzero eq_refl)
    as ((_ & _ & Hn) & _ & _ & _ & Hpn).
  destruct (C9_failures_suppressed 0%nat i unknown eq_refl)
    as ((_ & Hu) & _ & _ & _ & Hpu).
  split; [reflexivity|]. split; [exact Hf|]. split; [exact Hn|].
  split; [exact Hu|]. split; [exact Hpf|]. split; [exact Hpn | exact Hpu].
Defined.

(** ** Calls that force the resolution *)



(** * Further properties of the code *)

(** ** Normalization and stripping *)

(** X1: [_unknown_as_blank] is idempotent, never returns the word
    [unknown], and changes no other string: the comparison is exact, so a
    capitalised or padded spelling is kept. *)
Theorem X1_unknown_as_blank_idempotent (v : string) :
  _unknown_as_blank (_unknown_as_blank v) = _unknown_as_blank v
  /\ String.eqb (_unknown_as_blank v) "unknown" = false
  /\ _unknown_as_blank v = (if String.eqb v "unknown" then "" else v)
  /\ _unknown_as_blank "Unknown" = "Unknown"
  /\ _unknown_as_blank "unknown " = "unknown ".
Proof.
  unfold _unknown_as_blank.
  destruct (String.eqb v "unknown") eqn:E; repeat split.
  - rewrite E. reflexivity.
  - exact E.
Qed.

Lemma lstrip_no_leading s : starts_with_space (lstrip s) = false.
Proof.
  induction s as [|c t IH]; [reflexivity|]. simpl.
  destruct (isspace c) eqn:E; [exact IH | simpl; exact E].
Qed.

Lemma lstrip_id s : starts_with_space s = false -> lstrip s = s.
Proof. destruct s as [|c t]; simpl; [reflexivity | intros ->; reflexivity]. Qed.

Lemma rstrip_no_trailing s : ends_with_space (rstrip s) = false.
Proof.
  induction s as [|c t IH]; [reflexivity|]. simpl.
  destruct (rstrip t) as [|c' t'] eqn:Er.
  - destruct (isspace c) eqn:E; [reflexivity | simpl; exact E].
  - exact IH.
Qed.

Lemma rstrip_keeps_head s :
  starts_with_space s = false -> starts_with_space (rstrip s) = false.
Proof.
  destruct s as [|c t]; simpl; [reflexivity|]. intros E.
  destruct (rstrip t); [rewrite E|]; simpl; exact E.
Qed.

Lemma rstrip_idem s : rstrip (rstrip s) = rstrip s.
Proof.
  induction s as [|c t IH]; [reflexivity|]. simpl.
  destruct (rstrip t) as [|c' t'] eqn:Er.
  - destruct (isspace c) eqn:E; [reflexivity | simpl; rewrite E; reflexivity].
  - change (rstrip (String c (String c' t'))) with
      (match rstrip (String c' t') with
       | EmptyString =>
           if isspace c then EmptyString else String c EmptyString
       | t'' => String c t''
       end).
    rewrite IH. reflexivity.
Qed.

Lemma lstrip_empty s : String.eqb (lstrip s) "" = all_space s.
Proof.
  induction s as [|c t IH]; [reflexivity|]. simpl.
  destruct (isspace c); [exact IH | reflexivity].
Qed.

Lemma rstrip_empty s : String.eqb (rstrip s) "" = all_space s.
Proof.
  induction s as [|c t IH]; [reflexivity|]. simpl.
  destruct (rstrip t) as [|c' t'] eqn:Er; simpl in IH; rewrite <- IH.
  - destruct (isspace c); reflexivity.
  - rewrite andb_false_r. reflexivity.
Qed.

Lemma all_space_lstrip s : all_space (lstrip s) = all_space s.
Proof.
  induction s as [|c t IH]; [reflexivity|]. simpl.
  destruct (isspace c) eqn:E; [exact IH | simpl; rewrite E; reflexivity].
Qed.

Lemma strip_shape s :
  starts_with_space (strip s) = false
  /\ ends_with_space (strip s) = false
  /\ strip (strip s) = strip s
  /\ String.eqb (strip s) "" = all_space s.
Proof.
  unfold strip. split; [|split; [|split]].
  - apply rstrip_keeps_head, lstrip_no_leading.
  - apply rstrip_no_trailing.
  - rewrite (lstrip_id (rstrip (lstrip s))).
    + apply rstrip_idem.
    + apply rstrip_keeps_head, lstrip_no_leading.
  - rewrite rstrip_empty. apply all_space_lstrip.
Qed.

Lemma resolved_clean o :
  starts_with_space (resolved o) = false
  /\ ends_with_space (resolved o) = false.
Proof.
  destruct o as [out| |]; simpl; [|split; reflexivity..].
  destruct (strip_shape out) as (H1 & H2 & _). split; assumption.
Qed.

Lemma next_processor_clean s : clean (next_processor s) = true.
Proof.
  unfold next_processor, clean, _unknown_as_blank.
  destruct (resolved_clean (uname_p s (spawned s))) as (H1 & H2).
  destruct (String.eqb (resolved (uname_p s (spawned s))) "unknown") eqn:E.
  - reflexivity.
  - rewrite E, H1, H2. reflexivity.
Qed.

(** X2: the string [get] returns never begins or ends with whitespace,
    whatever the command prints, and stripping it again changes nothing; a
    first read of [processor] on any record gives a value of that shape
    which, besides, is not the word [unknown]. *)
Theorem X2_resolver_output_is_stripped (s : state) :
  exists v,
    _Processor.get s = (Ok v, tick s)
    /\ starts_with_space v = false
    /\ ends_with_space v = false
    /\ strip v = v
    /\ clean (_unknown_as_blank v) = true
    /\ forall x, uname_result.processor_func x s
                 = (Ok (_unknown_as_blank v), tick s)
                 /\ uname_result2.processor_func x s
                    = (Ok (_unknown_as_blank v), tick s).
Proof.
  exists (resolved (uname_p s (spawned s))).
  destruct (resolved_clean (uname_p s (spawned s))) as (H1 & H2).
  split; [apply get_eq|]. split; [exact H1|]. split; [exact H2|].
  split.
  { destruct (uname_p s (spawned s)) as [out| |]; simpl; try reflexivity.
    apply strip_shape. }
  split; [apply next_processor_clean|].
  intros x. split; [apply processor_func_eq | apply processor_func2_eq].
Qed.

(** X3: [get] returns the empty string in exactly three cases, which the
    caller cannot tell apart: the command could not be started, it exited
    with a status other than 0, or everything it printed was whitespace. *)
Theorem X3_blank_result_cases (s : state) :
  exists v,
    _Processor.get s = (Ok v, tick s)
    /\ String.eqb v ""
       = match uname_p s (spawned s) with
         | Exit0 out => all_space out
         | NonZeroExit | SpawnFailure => true
         end.
Proof.
  exists (resolved (uname_p s (spawned s))). split; [apply get_eq|].
  destruct (uname_p s (spawned s)) as [out| |]; simpl; try reflexivity.
  apply strip_shape.
Qed.

(** X4: the dispatch on [sys.platform] never finds a platform getter, the
    class defining none: whatever the platform string, [get] runs
    [from_subprocess], so two states that differ only in the platform give
    the same result and run the command alike. *)
Theorem X4_platform_is_ignored (s : state) (platform : string) :
  let s' := mk_state (heap s) platform (uname_p s) (spawned s) in
  (forall d, _Processor.getattr ("get_" +:+ platform) d = d)
  /\ fst (_Processor.get s') = fst (_Processor.get s)
  /\ fst (_Processor.get s') = fst ((v <- _Processor.from_subprocess ;;
                                     ret (default "" v)) s)
  /\ spawned (snd (_Processor.get s')) = S (spawned s)
  /\ heap (snd (_Processor.get s')) = heap s.
Proof.
  intros s'. split; [reflexivity|].
  rewrite (get_eq s'), (get_eq s). simpl.
  split; [reflexivity|]. split; [|split; reflexivity].
  unfold _Processor.from_subprocess, _Processor.check_output, try_except,
    bind, ret.
  destruct (uname_p s (spawned s)); reflexivity.
Qed.

(** ** Construction *)

(** X5: called with any number of values other than five, the constructor
    and [_make] of either class raise [TypeError] and leave the state as it
    was: no object is allocated and the command is not run. *)
Theorem X5_wrong_arity_changes_nothing (c : cls) (args : list string)
    (s : state) :
  length args <> 5%nat ->
  construct c args s = (Raise TypeError, s)
  /\ make c args s = (Raise TypeError, s).
Proof.
  intros H. split; [apply construct_arity | apply make_arity]; exact H.
Qed.

Lemma X5_wrong_arity_changes_nothing_witness :
  let s := initial "linux" (prints "x86_64") in
  let six := ["Linux"; "host"; "6.1"; "#1"; "x86_64"; "x86_64"] in
  length six <> 5%nat
  /\ construct Cuname_result2 six s = (Raise TypeError, s)
  /\ make Cuname_result2 six s = (Raise TypeError, s)
  /\ make Cuname_result [] s = (Raise TypeError, s).
Proof.
  intros s six.
  assert (H6 : length six <> 5%nat) by (simpl; lia).
  assert (H0 : length (@nil string) <> 5%nat) by (simpl; lia).
  destruct (X5_wrong_arity_changes_nothing Cuname_result2 six s H6)
    as (Hc & Hm).
  destruct (X5_wrong_arity_changes_nothing Cuname_result [] s H0)
    as (_ & Hm0).
  split; [exact H6|]. split; [exact Hc|]. split; [exact Hm | exact Hm0].
Defined.

(** X6: [_make] is the constructor followed by a measure of the length, for
    every iterable of strings and in both classes: it succeeds exactly when
    the constructor does, that is on five values, so its own comparison of
    the length with the number of fields never fails; and on five values
    the object it returns has the items the constructor would store. *)
Theorem X6_make_is_construct_then_len (c : cls) (iterable : list string)
    (s : state) :
  make c iterable s = (x <- construct c iterable ;; _ <- len x ;; ret x) s
  /\ is_ok (fst (make c iterable s)) = bool_decide (length iterable = 5%nat)
  /\ is_ok (fst (construct c iterable s))
     = bool_decide (length iterable = 5%nat)
  /\ fst ((x <- make c iterable ;; namedtuple_iter x) s)
     = fst ((x <- construct c iterable ;; namedtuple_iter x) s).
Proof.
  destruct (decide (length iterable = 5%nat)) as [Hlen|Hlen].
  - rewrite (bool_decide_eq_true_2 _ Hlen).
    destruct (five_args iterable Hlen) as (a0 & a1 & a2 & a3 & a4 & ->).
    unfold bind. rewrite make_eq, construct_eq.
    erewrite len_eq by apply lookup_fresh.
    unfold forced; simpl. rewrite insert_fresh.
    repeat split.
    unfold namedtuple_iter, bind, deref; simpl. rewrite !lookup_fresh.
    reflexivity.
  - rewrite (bool_decide_eq_false_2 _ Hlen).
    unfold bind. rewrite make_arity, construct_arity by exact Hlen.
    repeat split.
Qed.

(** ** Reading fields by name and by position *)

Lemma tuple_index_six (b0 b1 b2 b3 b4 b5 : string) (f : field) :
  tuple_index [b0; b1; b2; b3; b4; b5] (field_index f)
  = Ok match f with
       | f_system => b0
       | f_node => b1
       | f_release => b2
       | f_version => b3
       | f_machine => b4
       | f_processor => b5
       end.
Proof. destruct f; reflexivity. Qed.

(** X7: reading a field by its position gives the value that reading it by
    name gives; but reading one of the five eager fields by name leaves
    the state as it was, whereas reading it by position goes through the
    sequence view: on a record whose processor is not resolved yet it runs
    the command, once, and caches the value. *)
Theorem X7_name_and_position (x : ref) (i : instance) (s : state)
    (f : field) :
  heap s !! x = Some i ->
  fst (getitem x (field_index f) s) = fst (getfield x f s)
  /\ snd (getfield x f s)
     = match f with f_processor => forced x i s | _ => s end
  /\ snd (getitem x (field_index f) s) = forced x i s
  /\ spawned (forced x i s)
     = match ob_dict i with
       | Some _ => spawned s
       | None => S (spawned s)
       end
  /\ heap (forced x i s) !! x
     = Some (mk_instance (ob_type i) (ob_item i) (Some (seen i s))).
Proof.
  intros Hx.
  rewrite (getitem_eq x i s _ Hx), (getfield_eq x i s f Hx).
  unfold tuple_getitem, items. simpl app. rewrite tuple_index_six.
  split; [destruct f; reflexivity|]. split; [destruct f; reflexivity|].
  split; [reflexivity|]. split; [apply spawned_forced|].
  apply heap_forced; exact Hx.
Qed.

Lemma X7_name_and_position_witness :
  let i := mk_instance Cuname_result
             (mk_base "Linux" "host.local" "6.1" "#1" "x86_64") None in
  let s := mk_state [i] "linux" (prints "x86_64") 0 in
  heap s !! 0%nat = Some i
  /\ getfield 0%nat f_system s = (Ok "Linux", s)
  /\ fst (getitem 0%nat 0 s) = Ok "Linux"
  /\ spawned (snd (getitem 0%nat 0 s)) = 1%nat
  /\ spawned (snd (getfield 0%nat f_system s)) = 0%nat.
Proof.
  intros i s.
  destruct (X7_name_and_position 0%nat i s f_system eq_refl)
    as (Hv & Hs & Hs' & Hsp & _).
  unfold field_index in Hv, Hs'.
  split; [reflexivity|]. split; [reflexivity|].
  split; [rewrite Hv; reflexivity|].
  split; [rewrite Hs'; exact Hsp | rewrite Hs; reflexivity].
Defined.

Lemma tuple_index_negative (t : list string) (k : Z) :
  0 <= k < Z.of_nat (length t) ->
  tuple_index t (k - Z.of_nat (length t)) = tuple_index t k.
Proof.
  intros Hk. unfold tuple_index.
  destruct (Z.ltb_spec (k - Z.of_nat (length t)) 0); [|lia].
  destruct (Z.ltb_spec k 0); [lia|].
  replace (k - Z.of_nat (length t) + Z.of_nat (length t)) with k by lia.
  reflexivity.
Qed.

(** X8: a position counted from the end names the same field as the
    position counted from the start: for [k] from 0 to 5, indexing with
    [k - 6] gives what indexing with [k] gives, result and state. *)
Theorem X8_negative_positions (x : ref) (i : instance) (s : state) (k : Z) :
  heap s !! x = Some i ->
  0 <= k < 6 ->
  getitem x (k - 6) s = getitem x k s
  /\ is_ok (fst (getitem x k s)) = true.
Proof.
  intros Hx Hk. rewrite !(getitem_eq x i s _ Hx). unfold tuple_getitem.
  pose proof (tuple_index_negative (items (ob_item i) ++ [seen i s]) k Hk)
    as Hneg.
  simpl length in Hneg. change (Z.of_nat 6) with 6 in Hneg.
  rewrite Hneg. split; [reflexivity|]. cbn [fst].
  assert (E : (-6 <=? k) && (k <? 6) = true).
  { apply andb_true_intro. split; [apply Z.leb_le | apply Z.ltb_lt]; lia. }
  pose proof (tuple_index_range (items (ob_item i) ++ [seen i s]) k) as Hr.
  change (if (-6 <=? k) && (k <? 6)
          then exists v,
                 tuple_index (items (ob_item i) ++ [seen i s]) k = Ok v
          else tuple_index (items (ob_item i) ++ [seen i s]) k
               = Raise IndexError) in Hr.
  rewrite E in Hr. destruct Hr as [v ->]. reflexivity.
Qed.

Lemma X8_negative_positions_witness :
  let i := mk_instance Cuname_result2
             (mk_base "Linux" "host.local" "6.1" "#1" "x86_64") None in
  let s := mk_state [i] "linux" (prints "x86_64") 0 in
  heap s !! 0%nat = Some i
  /\ 0 <= 2 < 6
  /\ getitem 0%nat (2 - 6) s = getitem 0%nat 2 s
  /\ fst (getitem 0%nat (-4) s) = Ok "6.1".
Proof.
  intros i s.
  assert (Hk : 0 <= 2 < 6) by lia.
  destruct (X8_negative_positions 0%nat i s 2 eq_refl Hk) as (He & _).
  split; [reflexivity|]. split; [exact Hk|]. split; [exact He | reflexivity].
Defined.

(** ** The entry point *)

(** X9: [main]'s body raises [TypeError] whatever values it is given and
    whatever the command does.  Given five values it allocates the record
    and runs the command once (inside [asdict], which iterates the record)
    before the exception; given any other number it fails in the
    constructor, with nothing allocated and nothing run. *)
Theorem X9_main_always_raises (vals : list string) (s : state) :
  fst (main_from vals s) = Raise TypeError
  /\ spawned (snd (main_from vals s))
     = (if bool_decide (length vals = 5%nat)
        then S (spawned s) else spawned s)
  /\ length (heap (snd (main_from vals s)))
     = (if bool_decide (length vals = 5%nat)
        then S (length (heap s)) else length (heap s)).
Proof.
  destruct (decide (length vals = 5%nat)) as [Hlen|Hlen].
  - rewrite (bool_decide_eq_true_2 _ Hlen).
    destruct (five_args vals Hlen) as (a0 & a1 & a2 & a3 & a4 & ->).
    unfold main_from, bind. simpl map. rewrite construct_eq.
    erewrite asdict_raises by apply lookup_fresh.
    unfold forced; simpl. rewrite length_insert, length_app. simpl.
    repeat split. lia.
  - rewrite (bool_decide_eq_false_2 _ Hlen).
    unfold main_from, bind. rewrite construct_arity; [repeat split|].
    rewrite length_map. exact Hlen.
Qed.

(** X10: [asdict] on a [UnameInfo] that holds a record of either class, in
    any state of that record, raises [TypeError]; no object is allocated,
    and the record is left with its processor value cached, the iteration
    having read it. *)
Theorem X10_asdict_raises_on_every_record (x : ref) (i : instance)
    (s : state) :
  heap s !! x = Some i ->
  dataclasses.asdict (mk_UnameInfo x) s = (Raise TypeError, forced x i s)
  /\ length (heap (forced x i s)) = length (heap s)
  /\ heap (forced x i s) !! x
     = Some (mk_instance (ob_type i) (ob_item i) (Some (seen i s))).
Proof.
  intros Hx. split; [apply asdict_raises; exact Hx|].
  split; [apply length_heap_forced | apply heap_forced; exact Hx].
Qed.

Lemma X10_asdict_raises_on_every_record_witness :
  let i := mk_instance Cuname_result
             (mk_base "Linux" "host.local" "6.1" "#1" "x86_64")
             (Some "x86_64") in
  let s := mk_state [i] "linux" (prints "arm") 3 in
  heap s !! 0%nat = Some i
  /\ dataclasses.asdict (mk_UnameInfo 0%nat) s = (Raise TypeError, s).
Proof.
  intros i s.
  destruct (X10_asdict_raises_on_every_record 0%nat i s eq_refl) as (H & _).
  split; [reflexivity | exact H].
Defined.

(** ** Invariants of every program of calls *)

Lemma do_call_steps c k s : rtc step s (snd (do_call c k s)).
Proof.
  destruct (reads k) as [y|] eqn:Hk.
  - destruct (heap s !! y) as [j|] eqn:Hy.
    + assert (Hf : rtc step s (forced y j s))
        by (apply rtc_once, step_force; exact Hy).
      destruct k as [| |z|z key|z|z|z|z f]; simpl in Hk; inversion Hk; subst;
        simpl; unfold fmap_M, bind.
      * rewrite (iter_eq y j s Hy). exact Hf.
      * rewrite (getitem_eq y j s key Hy). unfold tuple_getitem.
        destruct (tuple_index _ key); exact Hf.
      * rewrite (len_eq y j s Hy). exact Hf.
      * rewrite (reduce_eq y j s Hy). exact Hf.
      * rewrite (reconstruct_eq y j s Hy). simpl.
        eapply rtc_r; [exact Hf | apply step_alloc].
      * rewrite (getfield_eq y j s f Hy).
        destruct f; simpl; try exact Hf; apply rtc_refl.
    + rewrite (do_call_dangling c k y s Hk Hy). apply rtc_refl.
  - destruct k as [args|args| | | | | |]; simpl in Hk; try discriminate;
      simpl; unfold fmap_M, bind;
      destruct (decide (length args = 5%nat)) as [Hlen|Hlen].
    + destruct (five_args args Hlen) as (a0 & a1 & a2 & a3 & a4 & ->).
      rewrite construct_eq. apply rtc_once, step_alloc.
    + rewrite construct_arity by exact Hlen. apply rtc_refl.
    + destruct (five_args args Hlen) as (a0 & a1 & a2 & a3 & a4 & ->).
      rewrite make_eq. apply rtc_once, step_make.
    + rewrite make_arity by exact Hlen. apply rtc_refl.
Qed.

Lemma run_calls_steps c prog :
  forall s, rtc step s (snd (run_calls c prog s)).
Proof.
  induction prog as [|k prog IH]; intros s; [apply rtc_refl|].
  cbn [run_calls]. pose proof (do_call_steps c k s) as Hk.
  destruct (do_call c k s) as [v s']. simpl in Hk.
  specialize (IH s'). destruct (run_calls c prog s') as [vs s''].
  simpl in *. eapply rtc_trans; eassumption.
Qed.

Lemma grown_refl i : grown i i.
Proof. unfold grown. destruct (ob_dict i); auto. Qed.

Lemma grown_trans i j k : grown i j -> grown j k -> grown i k.
Proof.
  unfold grown. intros (Ht & Hi & Hd) (Ht' & Hi' & Hd').
  split; [congruence|]. split; [congruence|].
  destruct (ob_dict i) as [v|]; [|exact I].
  rewrite Hd in Hd'. exact Hd'.
Qed.

Lemma step_grown s s' x i :
  step s s' -> heap s !! x = Some i ->
  exists i', heap s' !! x = Some i' /\ grown i i'.
Proof.
  intros Hstep Hx. pose proof (lookup_lt_Some _ _ _ Hx) as Hlt.
  destruct Hstep as [y j Hy|c t|c t].
  - destruct (decide (y = x)) as [->|Hne].
    + rewrite Hx in Hy. inversion Hy; subst j.
      eexists. split; [apply heap_forced; exact Hx|].
      unfold grown, seen; simpl. destruct (ob_dict i); auto.
    + exists i. rewrite heap_forced_ne by exact Hne.
      split; [exact Hx | apply grown_refl].
  - exists i. simpl. rewrite lookup_app_l by exact Hlt.
    split; [exact Hx | apply grown_refl].
  - exists i. simpl. rewrite lookup_app_l by exact Hlt.
    split; [exact Hx | apply grown_refl].
Qed.

Lemma steps_grown s s' :
  rtc step s s' ->
  forall x i, heap s !! x = Some i ->
              exists i', heap s' !! x = Some i' /\ grown i i'.
Proof.
  induction 1 as [s|s s1 s2 Hstep _ IH]; intros x i Hx.
  - exists i. split; [exact Hx | apply grown_refl].
  - destruct (step_grown s s1 x i Hstep Hx) as (i1 & Hx1 & Hg1).
    destruct (IH x i1 Hx1) as (i2 & Hx2 & Hg2).
    exists i2. split; [exact Hx2 | eapply grown_trans; eassumption].
Qed.

Lemma cached_app h j :
  cached (h ++ [j])
  = (cached h + match ob_dict j with Some _ => 1 | None => 0 end)%nat.
Proof. induction h as [|i h IH]; simpl; [lia | rewrite IH; lia]. Qed.

Lemma cached_insert h x i c t v :
  h !! x = Some i -> ob_dict i = None ->
  cached (<[x := mk_instance c t (Some v)]> h) = S (cached h).
Proof.
  revert x. induction h as [|j h IH]; intros x Hx Hd; [discriminate|].
  destruct x as [|x]; simpl in *.
  - inversion Hx; subst j. rewrite Hd. reflexivity.
  - rewrite (IH x Hx Hd). lia.
Qed.

Lemma step_count s s' :
  step s s' ->
  (spawned s' + cached (heap s) = spawned s + cached (heap s'))%nat.
Proof.
  intros [y j Hy|c t|c t].
  - unfold forced. destruct (ob_dict j) as [v|] eqn:Hd; [reflexivity|].
    simpl. rewrite (cached_insert _ _ _ _ _ _ Hy Hd). lia.
  - simpl. rewrite cached_app. simpl. lia.
  - simpl. rewrite cached_app. simpl. lia.
Qed.

Lemma steps_count s s' :
  rtc step s s' ->
  (spawned s' + cached (heap s) = spawned s + cached (heap s'))%nat.
Proof.
  induction 1 as [s|s s1 s2 Hstep _ IH]; [reflexivity|].
  pose proof (step_count s s1 Hstep). lia.
Qed.

Lemma step_world s s' :
  step s s' ->
  sys_platform s' = sys_platform s
  /\ uname_p s' = uname_p s
  /\ (spawned s <= spawned s')%nat
  /\ (length (heap s) <= length (heap s'))%nat.
Proof.
  intros [y j Hy|c t|c t].
  - unfold forced. destruct (ob_dict j); simpl; rewrite ?length_insert;
      repeat split; lia.
  - simpl. rewrite length_app. repeat split; lia.
  - simpl. rewrite length_app. repeat split; lia.
Qed.

Lemma steps_world s s' :
  rtc step s s' ->
  sys_platform s' = sys_platform s
  /\ uname_p s' = uname_p s
  /\ (spawned s <= spawned s')%nat
  /\ (length (heap s) <= length (heap s'))%nat.
Proof.
  induction 1 as [s|s s1 s2 Hstep _ IH]; [repeat split; lia|].
  destruct (step_world s s1 Hstep) as (H1 & H2 & H3 & H4).
  destruct IH as (H1' & H2' & H3' & H4').
  repeat split; try congruence; lia.
Qed.

Lemma step_clean s s' :
  step s s' ->
  Forall (fun i => clean_object i = true) (heap s) ->
  Forall (fun i => clean_object i = true) (heap s').
Proof.
  intros [y j Hy|c t|c t] Hall.
  - unfold forced. destruct (ob_dict j); [exact Hall|]. simpl.
    apply Forall_insert; [exact Hall|]. apply next_processor_clean.
  - simpl. apply Forall_app. split; [exact Hall|].
    constructor; [reflexivity | constructor].
  - simpl. apply Forall_app. split; [exact Hall|].
    constructor; [apply next_processor_clean | constructor].
Qed.

Lemma steps_clean s s' :
  rtc step s s' ->
  Forall (fun i => clean_object i = true) (heap s) ->
  Forall (fun i => clean_object i = true) (heap s').
Proof.
  induction 1 as [s|s s1 s2 Hstep _ IH]; intros Hall; [exact Hall|].
  apply IH. eapply step_clean; eassumption.
Qed.

(** X11: a record is immutable but for its cache.  Whatever program of
    calls runs, on this record or on others, a record that exists keeps
    its reference, its class and its five stored items, and once a
    processor value is cached it is never replaced or removed; the store
    only grows, the count of runs of the command only grows, and the
    platform and the command are left alone. *)
Theorem X11_records_are_immutable (c : cls) (prog : list call) (s : state)
    (x : ref) (i : instance) :
  heap s !! x = Some i ->
  let s' := snd (run_calls c prog s) in
  (exists i', heap s' !! x = Some i' /\ grown i i')
  /\ (length (heap s) <= length (heap s'))%nat
  /\ (spawned s <= spawned s')%nat
  /\ sys_platform s' = sys_platform s
  /\ uname_p s' = uname_p s.
Proof.
  intros Hx s'. pose proof (run_calls_steps c prog s) as Hsteps.
  split; [exact (steps_grown _ _ Hsteps x i Hx)|].
  destruct (steps_world _ _ Hsteps) as (H1 & H2 & H3 & H4).
  repeat split; assumption.
Qed.

Lemma X11_records_are_immutable_witness :
  let i := mk_instance Cuname_result2
             (mk_base "Linux" "host.local" "6.1" "#1" "x86_64") None in
  let s := mk_state [i] "linux" (prints_then "x86_64" "arm") 0 in
  let prog := [Length 0%nat; Reconstruct 0%nat; Index 1%nat 5;
               Make ["a"; "b"; "c"; "d"; "e"]; Iterate 0%nat] in
  heap s !! 0%nat = Some i
  /\ exists i',
       heap (snd (run_calls Cuname_result prog s)) !! 0%nat = Some i'
       /\ grown i i'.
Proof.
  intros i s prog.
  destruct (X11_records_are_immutable Cuname_result prog s 0%nat i eq_refl)
    as (H & _).
  split; [reflexivity | exact H].
Defined.

(** X12: the command is run exactly once for each record that gets a
    cached value: over any program of calls, the increase in the number of
    runs is the increase in the number of records that hold a cached
    value; so after a program started on the empty store there are as many
    runs as resolved records, and never more runs than records. *)
Theorem X12_one_run_per_resolved_record (c : cls) (prog : list call)
    (s : state) (platform : string) (cmd : nat -> cmd_outcome) :
  (spawned (snd (run_calls c prog s)) + cached (heap s)
   = spawned s + cached (heap (snd (run_calls c prog s))))%nat
  /\ spawned (snd (run_calls c prog (initial platform cmd)))
     = cached (heap (snd (run_calls c prog (initial platform cmd))))
  /\ (spawned (snd (run_calls c prog (initial platform cmd)))
      <= length (heap (snd (run_calls c prog (initial platform cmd)))))%nat.
Proof.
  pose proof (steps_count _ _ (run_calls_steps c prog s)) as Hs.
  pose proof (steps_count _ _ (run_calls_steps c prog (initial platform cmd)))
    as H0.
  simpl in H0. split; [exact Hs|]. split; [lia|].
  assert (Hle : forall h, (cached h <= length h)%nat).
  { induction h as [|j h IH]; simpl; [lia|]. destruct (ob_dict j); lia. }
  specialize (Hle (heap (snd (run_calls c prog (initial platform cmd))))).
  lia.
Qed.

(** X13: no program of calls started on the empty store leaves a record
    with the word [unknown] cached, or with a cached value that begins or
    ends with whitespace, whatever the command prints. *)
Theorem X13_cached_values_are_clean (c : cls) (prog : list call)
    (platform : string) (cmd : nat -> cmd_outcome) :
  Forall (fun i => clean_object i = true)
    (heap (snd (run_calls c prog (initial platform cmd)))).
Proof.
  apply (steps_clean _ _ (run_calls_steps c prog (initial platform cmd))).
  constructor.
Qed.

(** ** Copies and independent records *)

(** X14: a copy made from the reduced form reduces to the same reduced
    form as the original, so copies of copies carry the same five items;
    and the copy is always an instance of the first class, also when the
    original is a [uname_result2], since both classes name [uname_result]
    in [__reduce__]. *)
Theorem X14_copies_reduce_alike (x : ref) (i : instance) (s : state) :
  heap s !! x = Some i ->
  fst ((y <- reconstruct x ;; reduce y) s) = fst (reduce x s)
  /\ fst ((y <- reconstruct x ;; z <- reconstruct y ;; namedtuple_iter z) s)
     = Ok (items (ob_item i))
  /\ fst ((y <- reconstruct x ;; j <- deref y ;; ret (ob_type j)) s)
     = Ok Cuname_result.
Proof.
  intros Hx. unfold bind.
  rewrite (reconstruct_eq x i s Hx), (reduce_eq x i s Hx).
  set (s1 := forced x i s).
  set (j := mk_instance Cuname_result (ob_item i) None).
  set (s2 := set_heap (heap s1 ++ [j]) s1).
  assert (Hlen : length (heap s) = length (heap s1))
    by (symmetry; apply length_heap_forced).
  assert (Hy : heap s2 !! length (heap s) = Some j)
    by (rewrite Hlen; apply lookup_fresh).
  split; [rewrite (reduce_eq _ j s2 Hy); reflexivity|].
  split.
  - rewrite (reconstruct_eq _ j s2 Hy).
    unfold namedtuple_iter, bind, deref.
    rewrite <- (length_heap_forced (length (heap s)) j s2).
    simpl heap. rewrite lookup_fresh. reflexivity.
  - unfold deref. rewrite Hy. reflexivity.
Qed.

Lemma X14_copies_reduce_alike_witness :
  let i := mk_instance Cuname_result2
             (mk_base "Linux" "host.local" "6.1" "#1" "x86_64") None in
  let s := mk_state [i] "linux" (prints_then "x86_64" "arm") 0 in
  heap s !! 0%nat = Some i
  /\ fst ((y <- reconstruct 0%nat ;; reduce y) s)
     = Ok (Cuname_result, ["Linux"; "host.local"; "6.1"; "#1"; "x86_64"])
  /\ fst ((y <- reconstruct 0%nat ;; j <- deref y ;; ret (ob_type j)) s)
     = Ok Cuname_result
  /\ ob_type i = Cuname_result2.
Proof.
  intros i s.
  destruct (X14_copies_reduce_alike 0%nat i s eq_refl) as (Hr & _ & Ht).
  split; [reflexivity|]. split; [rewrite Hr; reflexivity|].
  split; [exact Ht | reflexivity].
Defined.

(** X15: the cache belongs to the record.  Two distinct records that are
    not resolved yet take one run of the command each, in the order in
    which they are first read: the one read first gets the outcome of the
    next run, the other the outcome of the run after it, so which value a
    record holds depends on the order of the first reads. *)
Theorem X15_records_resolve_separately (x y : ref) (i j : instance)
    (s : state) :
  heap s !! x = Some i ->
  heap s !! y = Some j ->
  x <> y ->
  ob_dict i = None ->
  ob_dict j = None ->
  let first := _unknown_as_blank (resolved (uname_p s (spawned s))) in
  let second := _unknown_as_blank (resolved (uname_p s (S (spawned s)))) in
  fst ((p <- processor x ;; q <- processor y ;; ret (p, q)) s)
  = Ok (first, second)
  /\ fst ((q <- processor y ;; p <- processor x ;; ret (p, q)) s)
     = Ok (second, first)
  /\ spawned (snd ((p <- processor x ;; q <- processor y ;; ret (p, q)) s))
     = S (S (spawned s)).
Proof.
  intros Hx Hy Hne Hi Hj first second.
  assert (Hne' : y <> x) by congruence.
  assert (Hy' : heap (forced x i s) !! y = Some j)
    by (rewrite heap_forced_ne by exact Hne; exact Hy).
  assert (Hx' : heap (forced y j s) !! x = Some i)
    by (rewrite heap_forced_ne by exact Hne'; exact Hx).
  unfold bind.
  rewrite (processor_eq x i s Hx), (processor_eq y j _ Hy').
  rewrite (processor_eq y j s Hy), (processor_eq x i _ Hx').
  unfold seen, forced, next_processor. rewrite Hi, Hj. simpl.
  repeat split.
Qed.

Lemma X15_records_resolve_separately_witness :
  let i := mk_instance Cuname_result
             (mk_base "Linux" "host.local" "6.1" "#1" "x86_64") None in
  let s := mk_state [i; i] "linux" (prints_then "x86_64" "arm") 0 in
  heap s !! 0%nat = Some i
  /\ heap s !! 1%nat = Some i
  /\ 0%nat <> 1%nat
  /\ fst ((p <- processor 0%nat ;; q <- processor 1%nat ;; ret (p, q)) s)
     = Ok ("x86_64", "arm")
  /\ fst ((q <- processor 1%nat ;; p <- processor 0%nat ;; ret (p, q)) s)
     = Ok ("arm", "x86_64").
Proof.
  intros i s.
  assert (Hne : 0%nat <> 1%nat) by lia.
  destruct (X15_records_resolve_separately 0%nat 1%nat i i s
              eq_refl eq_refl Hne eq_refl eq_refl) as (H1 & H2 & _).
  split; [reflexivity|]. split; [reflexivity|]. split; [exact Hne|].
  split; [exact H1 | exact H2].
Defined.

(** X16: over the whole life of a record, from its construction through
    any number of reads of any kind, the command is run exactly once if
    the record came from [_make] (at construction), and for a record from
    the plain constructor exactly once if it is read at all and not
    otherwise; in both cases every read sees the value of the run that the
    state at construction had next. *)
Theorem X16_one_run_per_life (c : cls) (a0 a1 a2 a3 a4 : string)
    (accs : list access) (s : state) :
  let args := [a0; a1; a2; a3; a4] in
  let x := length (heap s) in
  let made := run_calls c (map (call_of x) accs) (snd (make c args s)) in
  let built :=
    run_calls c (map (call_of x) accs) (snd (construct c args s)) in
  fst (make c args s) = Ok x
  /\ fst (construct c args s) = Ok x
  /\ fst made
     = map (expected (mk_base a0 a1 a2 a3 a4) (next_processor s)) accs
  /\ fst built
     = map (expected (mk_base a0 a1 a2 a3 a4) (next_processor s)) accs
  /\ spawned (snd made) = S (spawned s)
  /\ spawned (snd built)
     = match accs with [] => spawned s | _ :: _ => S (spawned s) end.
Proof.
  intros args x made built. subst args x made built.
  rewrite make_eq, construct_eq. cbn [fst snd].
  set (sm := mk_state _ _ _ _). set (sb := set_heap _ s).
  assert (Hm : heap sm !! length (heap s)
               = Some (mk_instance c (mk_base a0 a1 a2 a3 a4)
                         (Some (next_processor s))))
    by apply lookup_fresh.
  assert (Hb : heap sb !! length (heap s)
               = Some (mk_instance c (mk_base a0 a1 a2 a3 a4) None))
    by apply lookup_fresh.
  destruct (run_accesses_eq c _ accs _ _ Hm) as (Hvm & Hsm & Hnm).
  destruct (run_accesses_eq c _ accs _ _ Hb) as (Hvb & Hsb & Hnb).
  split; [reflexivity|]. split; [reflexivity|].
  split; [exact Hvm|]. split; [exact Hvb|].
  destruct accs as [|a accs].
  - rewrite Hnm, Hnb by reflexivity. split; reflexivity.
  - rewrite Hsm, Hsb by congruence. split; reflexivity.
Qed.
